(** * Logger Service (src/python/flask/main.py)

    A shallow embedding of the Flask logging utility: the two request
    handlers [log_message_route] and [crash_route], and the background loop
    [periodic_logger].  Effects are made explicit: every call of a logger
    method and every completed [time.sleep] appends one event to a trace,
    and Python exceptions are the left summand of a computation's outcome. *)

From Stdlib Require Import ZArith QArith String Ascii List Bool Lia DecimalString.
Import ListNotations.

Local Open Scope string_scope.
Local Open Scope Z_scope.

(* ===================================================================== *)
(** * Python values used by the program *)
(* ===================================================================== *)

Module Py.

(** Strings are sequences of 8-bit characters; the case mappings below are
    those of [str.lower] and [str.upper] on ASCII text: the 26 letters are
    shifted by 32 and every other character is left alone.  Every string
    the program compares a lowercase form with (the keys of [log_levels],
    the handles that ask for propagation) is made of ASCII letters. *)

Definition is_upper (c : ascii) : bool :=
  let n := N_of_ascii c in (65 <=? n)%N && (n <=? 90)%N.

Definition is_lower (c : ascii) : bool :=
  let n := N_of_ascii c in (97 <=? n)%N && (n <=? 122)%N.

Definition lower_char (c : ascii) : ascii :=
  if is_upper c then ascii_of_N (N_of_ascii c + 32) else c.

Definition upper_char (c : ascii) : ascii :=
  if is_lower c then ascii_of_N (N_of_ascii c - 32) else c.

Fixpoint map_str (f : ascii -> ascii) (s : string) : string :=
  match s with
  | EmptyString => EmptyString
  | String c rest => String (f c) (map_str f rest)
  end.

(** [s.lower()] and [s.upper()]. *)
Definition lower : string -> string := map_str lower_char.
Definition upper : string -> string := map_str upper_char.

(** [sep.join(parts)]. *)
Definition join (sep : string) (parts : list string) : string :=
  String.concat sep parts.

(** [str(n)] for an [int], as an f-string placeholder renders it. *)
Definition str (n : Z) : string := NilZero.string_of_int (Z.to_int n).

(** [range(n)]: empty when [n <= 0]. *)
Definition range (n : Z) : list Z := map Z.of_nat (seq 0 (Z.to_nat n)).

(** [x in {...}] for a set literal of strings. *)
Definition contains (x : string) (xs : list string) : bool :=
  existsb (String.eqb x) xs.

(** A [dict] with string keys, in insertion order ([keys()] is ordered). *)
Definition dict (V : Type) : Type := list (string * V).

Definition keys {V} (d : dict V) : list string := map fst d.

Fixpoint lookup {V} (k : string) (d : dict V) : option V :=
  match d with
  | [] => None
  | (k', v) :: rest => if String.eqb k k' then Some v else lookup k rest
  end.

(** [k in d]. *)
Definition has_key {V} (k : string) (d : dict V) : bool :=
  match lookup k d with Some _ => true | None => false end.

(** [d.get(k, default)]. *)
Definition get {V} (k : string) (default : V) (d : dict V) : V :=
  match lookup k d with Some v => v | None => default end.

(** The value of a keyword parameter declared with a default. *)
Definition kwarg {A} (default : A) (supplied : option A) : A :=
  match supplied with Some a => a | None => default end.

End Py.

(* ===================================================================== *)
(** * Effects: the event trace and the handler monad *)
(* ===================================================================== *)

Module Eff.

(** The five operations of the log sink. *)
Inductive Severity : Type := DEBUG | INFO | WARNING | ERROR | CRITICAL.

(** What the process does to the outside: it hands a message to the logger
    at some severity, or it suspends in [time.sleep]. *)
Inductive Event : Type :=
| EvLog (sev : Severity) (msg : string)
| EvSleep (secs : Z).

(** Events in the order they happened, oldest first. *)
Definition World : Type := list Event.

Inductive Exn : Type :=
| ZeroDivisionError
| KeyError (key : string)
| ValueError
| OverflowError.

(** A computation threads the trace and ends in a value or an exception. *)
Definition M (A : Type) : Type := World -> World * (Exn + A).

Definition ret {A} (a : A) : M A := fun w => (w, inr a).

Definition raise {A} (e : Exn) : M A := fun w => (w, inl e).

Definition bind {A B} (m : M A) (k : A -> M B) : M B :=
  fun w =>
    match m w with
    | (w', inr a) => k a w'
    | (w', inl e) => (w', inl e)
    end.

(** [try: body / except <catches>: handler] followed by [rest]; an
    exception the clause does not name keeps propagating. *)
Definition try_except {A B} (body : M A) (catches : Exn -> bool)
           (handler : Exn -> M B) (rest : A -> M B) : M B :=
  fun w =>
    match body w with
    | (w', inr a) => rest a w'
    | (w', inl e) => if catches e then handler e w' else (w', inl e)
    end.

(** [for x in xs: body(x)]. *)
Fixpoint for_ {A} (xs : list A) (body : A -> M unit) : M unit :=
  match xs with
  | [] => ret tt
  | x :: rest => bind (body x) (fun _ => for_ rest body)
  end.

(** The result of running a loop for a bounded number of iterations. *)
Inductive Run (A : Type) : Type :=
| Finished (a : A)
| StillRunning.
Arguments Finished {A} a.
Arguments StillRunning {A}.

(** [while cond: body], unrolled at most [fuel] times. *)
Fixpoint while_ (fuel : nat) (cond : M bool) (body : M unit) : M (Run unit) :=
  match fuel with
  | O => ret StillRunning
  | S fuel' =>
      bind cond (fun c =>
        if c then bind body (fun _ => while_ fuel' cond body)
        else ret (Finished tt))
  end.

(** The longest duration, in whole seconds, that fits the interpreter's
    clock type (a signed 64-bit count of nanoseconds): 2^63 - 1 nanoseconds,
    rounded down. *)
Definition SLEEP_MAX : Z := 9223372036.

(** [time.sleep(secs)] for an [int]: the number is first converted to the
    clock type, which raises [OverflowError] when it does not fit; a
    negative duration is then refused with [ValueError]; otherwise the
    caller is suspended and the call returns. *)
Definition time_sleep (secs : Z) : M unit :=
  if (secs <? - SLEEP_MAX) || (SLEEP_MAX <? secs) then raise OverflowError
  else if secs <? 0 then raise ValueError
  else fun w => ((w ++ [EvSleep secs])%list, inr tt).

(** [a / b] on integers; the quotient is kept exact. *)
Definition truediv (a b : Z) : M Q :=
  if b =? 0 then raise ZeroDivisionError
  else ret (Qdiv (inject_Z a) (inject_Z b)).

Definition is_ZeroDivisionError (e : Exn) : bool :=
  match e with ZeroDivisionError => true | _ => false end.

End Eff.

Declare Scope py_scope.
Notation "x <- m ;; k" := (Eff.bind m (fun x => k))
  (at level 61, m at next level, right associativity) : py_scope.
Notation "m ;; k" := (Eff.bind m (fun _ => k))
  (at level 61, right associativity) : py_scope.
Local Open Scope py_scope.

(* ===================================================================== *)
(** * The program *)
(* ===================================================================== *)

Module Main.
Import Py Eff.

(** ** The logger (lines 20-21) *)

(** One record handed to the logger at severity [sev]; the five methods
    below are the operations of the sink. *)
Definition logger_log (sev : Severity) (msg : string) : M unit :=
  fun w => ((w ++ [EvLog sev msg])%list, inr tt).

Definition logger_debug : string -> M unit := logger_log DEBUG.
Definition logger_info : string -> M unit := logger_log INFO.
Definition logger_warning : string -> M unit := logger_log WARNING.
Definition logger_error : string -> M unit := logger_log ERROR.
Definition logger_critical : string -> M unit := logger_log CRITICAL.

(** Numeric levels of the [logging] module, and the threshold installed by
    [logging.basicConfig(level=logging.INFO, ...)]. *)
Definition levelno (sev : Severity) : Z :=
  match sev with
  | DEBUG => 10 | INFO => 20 | WARNING => 30 | ERROR => 40 | CRITICAL => 50
  end.

Definition basicConfig_level : Severity := INFO.

Definition isEnabledFor (sev : Severity) : bool :=
  levelno basicConfig_level <=? levelno sev.

(** The records of a trace that pass the threshold and reach the stream. *)
Definition handled (w : World) : list Event :=
  filter (fun e => match e with
                   | EvLog sev _ => isEnabledFor sev
                   | EvSleep _ => false
                   end) w.

(** ** [log_levels] (lines 23-29) *)

Definition log_levels : dict (string -> M unit) :=
  [ ("debug", logger_debug);
    ("info", logger_info);
    ("warning", logger_warning);
    ("error", logger_error);
    ("critical", logger_critical) ].

(** The key under which [log_levels] files each operation, and the keys
    in order. *)
Definition severity_name (sev : Severity) : string :=
  match sev with
  | DEBUG => "debug"
  | INFO => "info"
  | WARNING => "warning"
  | ERROR => "error"
  | CRITICAL => "critical"
  end.

Definition all_severities : list Severity :=
  [DEBUG; INFO; WARNING; ERROR; CRITICAL].

Definition valid_levels : list string :=
  ["debug"; "info"; "warning"; "error"; "critical"].

(** ** Settings read through [settipy] (lines 498-503) *)

Record Settings : Type := {
  PERIODIC_LOG_LEVEL : string;
  PERIODIC_LOG_MESSAGE : string;
  PERIODIC_LOG_INTERVAL : Z;
  HOST : string;
  PORT : Z;
  DEBUG_MODE : bool
}.

Definition default_settings : Settings := {|
  PERIODIC_LOG_LEVEL := "INFO";
  PERIODIC_LOG_MESSAGE := "System heartbeat";
  PERIODIC_LOG_INTERVAL := 10;
  HOST := "0.0.0.0";
  PORT := 5000;
  DEBUG_MODE := false
|}.

(** ** [periodic_logger] (lines 33-37) *)

(** One pass through the body of the [while True] loop. *)
Definition periodic_iteration (settipy : Settings) : M unit :=
  time_sleep (PERIODIC_LOG_INTERVAL settipy) ;;
  let log_function :=
    get (lower (PERIODIC_LOG_LEVEL settipy)) logger_info log_levels in
  log_function (PERIODIC_LOG_MESSAGE settipy).

Definition periodic_logger (settipy : Settings) (fuel : nat) : M (Run unit) :=
  while_ fuel (ret true) (periodic_iteration settipy).

(** ** What a view function returns, and the response Flask makes of it *)

Inductive ViewResult : Type :=
| Body (body : string)                          (* [return body] *)
| BodyStatus (body : string) (status : Z).      (* [return body, status] *)

Definition status_code (r : ViewResult) : Z :=
  match r with
  | Body _ => 200
  | BodyStatus _ status => status
  end.

Definition response_body (r : ViewResult) : string :=
  match r with
  | Body body => body
  | BodyStatus body _ => body
  end.

(** ** [log_message_route] (lines 40-63) *)

(** [count] is [None] on the route ['/<level>/<message>/'] and [Some n] on
    ['/<level>/<message>/<int:count>']. *)
Definition log_message_route (level message : string) (count : option Z)
  : M ViewResult :=
  let count := kwarg 1 count in
  if negb (has_key (lower level) log_levels) then
    ret (BodyStatus ("Invalid log level: " ++ level ++ ". Must be one of: "
                       ++ join ", " (keys log_levels)) 400)
  else
    log_function <- match lookup (lower level) log_levels with
                    | Some f => ret f
                    | None => raise (KeyError (lower level))
                    end ;;
    for_ (range count) (fun _ => log_function message) ;;
    ret (Body ("Emitted " ++ str count ++ " logs at level " ++ upper level
                 ++ " with message: " ++ message)).

(** ** [crash_route] (lines 66-92) *)

Definition propagate_handles : list string :=
  ["false"; "f"; "no"; "n"; "fail"].

Definition crash_log_message : string :=
  "Application crash initiated due to division by zero!".

Definition caught_crash_body : string :=
  "Crash endpoint triggered! Check server logs for division by zero error.".

Definition not_crashed_body : string :=
  "This should not be returned as crash is intended".

(** [handle] is [None] on the route ['/crash/'] and [Some h] on
    ['/crash/<handle>']. *)
Definition crash_route (handle : option string) : M ViewResult :=
  let handle := kwarg "" handle in
  try_except
    (truediv 1 0)
    is_ZeroDivisionError
    (fun caught =>
       logger_critical crash_log_message ;;
       if contains (lower handle) propagate_handles then raise caught
       else ret (BodyStatus caught_crash_body 500))
    (fun result => ret (BodyStatus not_crashed_body 200)).

End Main.

Import Py Eff Main.

(* ===================================================================== *)
(** * Sanity checks on concrete requests *)
(* ===================================================================== *)

Example str_renders_decimal :
  str 0 = "0" /\ str 7 = "7" /\ str 120 = "120" /\ str (-5) = "-5".
Proof. repeat split; reflexivity. Qed.

Example case_mappings :
  lower "WaRnInG" = "warning" /\ upper "WaRnInG" = "WARNING" /\
  lower "a-Z_09" = "a-z_09" /\ upper "a-Z_09" = "A-Z_09".
Proof. repeat split; reflexivity. Qed.

Example range_counts :
  range 3 = [0; 1; 2] /\ range 0 = [] /\ range (-2) = [].
Proof. repeat split; reflexivity. Qed.

Example get_error_three_times :
  log_message_route "error" "database-connection-failed" (Some 5) [] =
  (repeat (EvLog ERROR "database-connection-failed") 5,
   inr (Body "Emitted 5 logs at level ERROR with message: database-connection-failed")).
Proof. reflexivity. Qed.

Example get_unknown_level :
  log_message_route "Verbose" "x" None [] =
  ([], inr (BodyStatus
     "Invalid log level: Verbose. Must be one of: debug, info, warning, error, critical"
     400)).
Proof. reflexivity. Qed.

(* ===================================================================== *)
(** * Strings, dictionaries and loops *)
(* ===================================================================== *)

Lemma upper_char_lower_char (c : ascii) :
  upper_char (lower_char c) = upper_char c.
Proof. destruct c as [[] [] [] [] [] [] [] []]; reflexivity. Qed.

Lemma lower_char_idem (c : ascii) :
  lower_char (lower_char c) = lower_char c.
Proof. destruct c as [[] [] [] [] [] [] [] []]; reflexivity. Qed.

Lemma upper_lower (s : string) : upper (lower s) = upper s.
Proof.
  induction s as [|c s IH]; [reflexivity|].
  cbn. rewrite upper_char_lower_char. f_equal. exact IH.
Qed.

Lemma lower_idem (s : string) : lower (lower s) = lower s.
Proof.
  induction s as [|c s IH]; [reflexivity|].
  cbn. rewrite lower_char_idem. f_equal. exact IH.
Qed.

Lemma same_lower_same_upper (s t : string) :
  lower s = lower t -> upper s = upper t.
Proof.
  intro E. rewrite <- (upper_lower s), <- (upper_lower t). now rewrite E.
Qed.

Lemma contains_In (x : string) (xs : list string) :
  contains x xs = true <-> In x xs.
Proof.
  unfold contains. rewrite existsb_exists. split.
  - intros [y [Hy E]]. apply String.eqb_eq in E. now subst.
  - intro H. exists x. split; [exact H | apply String.eqb_refl].
Qed.

Lemma contains_not_In (x : string) (xs : list string) :
  contains x xs = false <-> ~ In x xs.
Proof.
  rewrite <- contains_In. destruct (contains x xs); split; intro H;
    try discriminate; try reflexivity; try (intro; discriminate).
  exfalso. now apply H.
Qed.

Lemma range_length (n : Z) : length (range n) = Z.to_nat n.
Proof. unfold range. now rewrite length_map, length_seq. Qed.

Lemma log_levels_table :
  log_levels = map (fun sev => (severity_name sev, logger_log sev)) all_severities.
Proof. reflexivity. Qed.

Lemma keys_log_levels : keys log_levels = valid_levels.
Proof. reflexivity. Qed.

Lemma valid_levels_names (k : string) :
  In k valid_levels <-> exists sev, k = severity_name sev.
Proof.
  split.
  - cbn. intros [E|[E|[E|[E|[E|[]]]]]]; subst k;
      [exists DEBUG|exists INFO|exists WARNING|exists ERROR|exists CRITICAL];
      reflexivity.
  - intros [sev ->]. destruct sev; cbn; tauto.
Qed.

Lemma lookup_severity_name (sev : Severity) :
  lookup (severity_name sev) log_levels = Some (logger_log sev).
Proof. destruct sev; reflexivity. Qed.

Lemma lookup_None {V} (k : string) (d : dict V) :
  ~ In k (keys d) -> lookup k d = None.
Proof.
  induction d as [|[k' v] d IH]; cbn; [reflexivity|].
  intro H. destruct (String.eqb_spec k k') as [->|_].
  - exfalso. apply H. now left.
  - apply IH. intro Hin. apply H. now right.
Qed.

Lemma lookup_invalid (k : string) :
  ~ In k valid_levels -> lookup k log_levels = None.
Proof. intro H. apply lookup_None. now rewrite keys_log_levels. Qed.

(** A loop whose body only logs appends one record per element. *)
Lemma for_logger_log {A} (xs : list A) (sev : Severity) (msg : string) (w : World) :
  for_ xs (fun _ => logger_log sev msg) w =
  ((w ++ repeat (EvLog sev msg) (length xs))%list, inr tt).
Proof.
  revert w. induction xs as [|x xs IH]; intro w; cbn.
  - now rewrite app_nil_r.
  - unfold bind, logger_log at 1. rewrite IH.
    now rewrite <- app_assoc.
Qed.

(* ===================================================================== *)
(** * The log emission handler *)
(* ===================================================================== *)

Section LogMessageRoute.

Variables (message : string) (w : World).

(** The handler on a level whose lowercase form names [sev]. *)
Lemma log_message_route_valid (sev : Severity) (level : string) (count : option Z) :
  lower level = severity_name sev ->
  log_message_route level message count w =
  ((w ++ repeat (EvLog sev message) (Z.to_nat (kwarg 1 count)))%list,
   inr (Body ("Emitted " ++ str (kwarg 1 count) ++ " logs at level "
                ++ upper level ++ " with message: " ++ message))).
Proof.
  intro Hlevel. cbv [log_message_route has_key].
  rewrite Hlevel, lookup_severity_name. cbv [negb bind ret].
  now rewrite for_logger_log, range_length.
Qed.

(** The handler on a level whose lowercase form is no key of [log_levels]. *)
Lemma log_message_route_invalid (level : string) (count : option Z) :
  ~ In (lower level) valid_levels ->
  log_message_route level message count w =
  (w, inr (BodyStatus ("Invalid log level: " ++ level
                         ++ ". Must be one of: debug, info, warning, error, critical")
                      400)).
Proof.
  intro Hlevel. cbv [log_message_route has_key].
  now rewrite (lookup_invalid _ Hlevel).
Qed.

(** C1: for a level whose lowercase form is one of debug, info, warning,
    error, critical, and a count [N >= 0] given in the path, the handler
    invokes the logger operation of that severity with the message exactly
    [N] times, one after the other and with nothing in between, and returns
    status 200 with the body
    "Emitted {count} logs at level {LEVEL} with message: {message}",
    [LEVEL] being the level in upper case. *)
Theorem log_message_route_emits_count
        (sev : Severity) (level : string) (count : Z) :
  lower level = severity_name sev ->
  0 <= count ->
  exists (n : nat) (response : ViewResult),
    Z.of_nat n = count /\
    log_message_route level message (Some count) w =
      ((w ++ repeat (EvLog sev message) n)%list, inr response) /\
    status_code response = 200 /\
    response_body response =
      "Emitted " ++ str count ++ " logs at level " ++ upper level
        ++ " with message: " ++ message.
Proof.
  intros Hlevel Hcount.
  exists (Z.to_nat count). eexists. split; [lia|]. split.
  - exact (log_message_route_valid sev level (Some count) Hlevel).
  - split; reflexivity.
Qed.

(** C2: for a level whose lowercase form is none of debug, info, warning,
    error, critical, the handler returns status 400 with a body that lists
    the valid levels, and the trace of log events is left as it was. *)
Theorem log_message_route_rejects_unknown_level
        (level : string) (count : option Z) :
  ~ In (lower level) valid_levels ->
  exists response : ViewResult,
    log_message_route level message count w = (w, inr response) /\
    status_code response = 400 /\
    response_body response =
      "Invalid log level: " ++ level ++ ". Must be one of: "
        ++ join ", " valid_levels.
Proof.
  intro Hlevel. eexists. split.
  - exact (log_message_route_invalid level count Hlevel).
  - split; reflexivity.
Qed.

(** C5: without the count segment the handler does what it does for
    count 1: on a valid level it logs the message once and the body reads
    "Emitted 1 logs ...". *)
Theorem log_message_route_default_count (sev : Severity) (level : string) :
  lower level = severity_name sev ->
  (forall any_level : string,
      log_message_route any_level message None w =
      log_message_route any_level message (Some 1) w) /\
  log_message_route level message None w =
    ((w ++ [EvLog sev message])%list,
     inr (Body ("Emitted 1 logs at level " ++ upper level
                  ++ " with message: " ++ message))).
Proof.
  intro Hlevel. split; [intro; reflexivity|].
  exact (log_message_route_valid sev level None Hlevel).
Qed.

(** C9: count 0 on a valid level is accepted: nothing is logged and the
    response is 200 with body
    "Emitted 0 logs at level {LEVEL} with message: {message}". *)
Theorem log_message_route_zero_count (sev : Severity) (level : string) :
  lower level = severity_name sev ->
  exists response : ViewResult,
    log_message_route level message (Some 0) w = (w, inr response) /\
    status_code response = 200 /\
    response_body response =
      "Emitted 0 logs at level " ++ upper level ++ " with message: " ++ message.
Proof.
  intro Hlevel. eexists. split.
  - rewrite (log_message_route_valid sev level (Some 0) Hlevel).
    cbn [kwarg Z.to_nat repeat]. now rewrite app_nil_r.
  - split; reflexivity.
Qed.

(** C6, as amended: two levels that differ only in letter case get the
    same response status and leave the same log events; when their common
    lowercase form is a valid level the whole response, body included, is
    the same. *)
Theorem log_message_route_case_insensitive
        (level1 level2 : string) (count : option Z) :
  lower level1 = lower level2 ->
  let (w1, outcome1) := log_message_route level1 message count w in
  let (w2, outcome2) := log_message_route level2 message count w in
  w1 = w2 /\
  (exists r1 r2, outcome1 = inr r1 /\ outcome2 = inr r2 /\
                 status_code r1 = status_code r2) /\
  (In (lower level1) valid_levels -> outcome1 = outcome2).
Proof.
  intro Hcase.
  destruct (in_dec string_dec (lower level1) valid_levels) as [Hin|Hout].
  - destruct (proj1 (valid_levels_names _) Hin) as [sev Hsev].
    rewrite (log_message_route_valid sev level1 count Hsev).
    rewrite Hcase in Hsev.
    rewrite (log_message_route_valid sev level2 count Hsev).
    rewrite (same_lower_same_upper _ _ Hcase).
    split; [reflexivity|]. split; [|reflexivity].
    do 2 eexists. repeat split.
  - rewrite (log_message_route_invalid level1 count Hout).
    rewrite Hcase in Hout.
    rewrite (log_message_route_invalid level2 count Hout).
    split; [reflexivity|]. split.
    + do 2 eexists. repeat split.
    + intro Hin. rewrite <- Hcase in Hout. contradiction.
Qed.

End LogMessageRoute.

Lemma log_message_route_emits_count_witness :
  lower "Warning" = severity_name WARNING /\ 0 <= 3 /\
  exists (n : nat) (response : ViewResult),
    Z.of_nat n = 3 /\
    log_message_route "Warning" "disk-full" (Some 3) [EvLog INFO "up"] =
      ([EvLog INFO "up"] ++ repeat (EvLog WARNING "disk-full") n, inr response)%list /\
    status_code response = 200 /\
    response_body response =
      "Emitted " ++ str 3 ++ " logs at level " ++ upper "Warning"
        ++ " with message: " ++ "disk-full".
Proof.
  split; [reflexivity|]. split; [discriminate|].
  apply (log_message_route_emits_count
           "disk-full" [EvLog INFO "up"] WARNING "Warning" 3);
    [reflexivity | discriminate].
Defined.

Lemma log_message_route_rejects_unknown_level_witness :
  ~ In (lower "Verbose") valid_levels /\
  exists response : ViewResult,
    log_message_route "Verbose" "x" (Some 2) [] = ([], inr response) /\
    status_code response = 400 /\
    response_body response =
      "Invalid log level: " ++ "Verbose" ++ ". Must be one of: "
        ++ join ", " valid_levels.
Proof.
  assert (H : ~ In (lower "Verbose") valid_levels).
  { cbn. intros [E|[E|[E|[E|[E|[]]]]]]; discriminate E. }
  split; [exact H|].
  exact (log_message_route_rejects_unknown_level "x" [] "Verbose" (Some 2) H).
Defined.

Lemma log_message_route_default_count_witness :
  lower "info" = severity_name INFO /\
  ((forall any_level : string,
       log_message_route any_level "system-startup" None [] =
       log_message_route any_level "system-startup" (Some 1) []) /\
   log_message_route "info" "system-startup" None [] =
     ([EvLog INFO "system-startup"],
      inr (Body "Emitted 1 logs at level INFO with message: system-startup"))).
Proof.
  split; [reflexivity|].
  exact (log_message_route_default_count "system-startup" [] INFO "info" eq_refl).
Defined.

Lemma log_message_route_zero_count_witness :
  lower "CRITICAL" = severity_name CRITICAL /\
  exists response : ViewResult,
    log_message_route "CRITICAL" "m" (Some 0) [] = ([], inr response) /\
    status_code response = 200 /\
    response_body response = "Emitted 0 logs at level CRITICAL with message: m".
Proof.
  split; [reflexivity|].
  exact (log_message_route_zero_count "m" [] CRITICAL "CRITICAL" eq_refl).
Defined.

Lemma log_message_route_case_insensitive_witness :
  lower "INFO" = lower "info" /\
  fst (log_message_route "INFO" "test" None []) =
    fst (log_message_route "info" "test" None []) /\
  snd (log_message_route "INFO" "test" None []) =
    snd (log_message_route "info" "test" None []).
Proof.
  split; [reflexivity|].
  pose proof (log_message_route_case_insensitive
                "test" [] "INFO" "info" None eq_refl) as H.
  cbv beta iota zeta in H.
  destruct (log_message_route "INFO" "test" None []) as [w1 o1].
  destruct (log_message_route "info" "test" None []) as [w2 o2].
  destruct H as [Hw [_ Ho]]. split; [exact Hw|].
  apply Ho. cbn. tauto.
Defined.

(** C6, as stated, fails on an invalid level: the 400 body quotes the level
    the way the caller wrote it, so "FOO" and "foo" get different bodies. *)
Lemma log_message_route_case_sensitive_body :
  lower "FOO" = lower "foo" /\
  log_message_route "FOO" "test" None [] =
    ([], inr (BodyStatus
       "Invalid log level: FOO. Must be one of: debug, info, warning, error, critical"
       400)) /\
  log_message_route "foo" "test" None [] =
    ([], inr (BodyStatus
       "Invalid log level: foo. Must be one of: debug, info, warning, error, critical"
       400)) /\
  snd (log_message_route "FOO" "test" None []) <>
  snd (log_message_route "foo" "test" None []).
Proof.
  split; [reflexivity|]. split; [reflexivity|]. split; [reflexivity|].
  intro H. discriminate H.
Qed.

(* ===================================================================== *)
(** * The crash handler *)
(* ===================================================================== *)

Section CrashRoute.

Variable w : World.

Lemma truediv_by_zero (a : Z) : truediv a 0 w = (w, inl ZeroDivisionError).
Proof. reflexivity. Qed.

(** Whatever the handle, the guarded division fails, the [except] clause
    runs and logs once at critical severity; only then does the handle
    decide between re-raising and answering. *)
Lemma crash_route_unfold (handle : option string) :
  crash_route handle w =
  ((w ++ [EvLog CRITICAL crash_log_message])%list,
   if contains (lower (kwarg "" handle)) propagate_handles
   then inl ZeroDivisionError
   else inr (BodyStatus caught_crash_body 500)).
Proof.
  cbv [crash_route try_except truediv Z.eqb raise is_ZeroDivisionError
       bind logger_critical logger_log].
  destruct (contains (lower (kwarg "" handle)) propagate_handles); reflexivity.
Qed.

(** C3: a handle whose lowercase form is none of "false", "f", "no", "n",
    "fail" (the omitted segment, which defaults to the empty string,
    included) makes the handler log exactly one critical record and return
    status 500 with the fixed body; the outcome is a response, not an
    exception. *)
Theorem crash_route_caught (handle : option string) :
  ~ In (lower (kwarg "" handle)) propagate_handles ->
  crash_route handle w =
    ((w ++ [EvLog CRITICAL crash_log_message])%list,
     inr (BodyStatus caught_crash_body 500)) /\
  crash_route None w =
    ((w ++ [EvLog CRITICAL crash_log_message])%list,
     inr (BodyStatus caught_crash_body 500)) /\
  status_code (BodyStatus caught_crash_body 500) = 500.
Proof.
  intro Hhandle. rewrite crash_route_unfold.
  rewrite (proj2 (contains_not_In _ _) Hhandle).
  repeat split; reflexivity.
Qed.

(** C4: a handle whose lowercase form is one of "false", "f", "no", "n",
    "fail" makes the handler log exactly one critical record and then
    re-raise the division error: the outcome is the exception, and the
    record is already in the trace when it leaves the handler. *)
Theorem crash_route_propagates (handle : option string) :
  In (lower (kwarg "" handle)) propagate_handles ->
  crash_route handle w =
    ((w ++ [EvLog CRITICAL crash_log_message])%list, inl ZeroDivisionError).
Proof.
  intro Hhandle. rewrite crash_route_unfold.
  now rewrite (proj2 (contains_In _ _) Hhandle).
Qed.

(** C10: the division [1 / 0] always raises, so for every handle the
    handler ends either in the 500 caught-crash response or in the re-raised
    error; it never returns the 200 response of the line after the [try]
    statement, nor any other response with status 200. *)
Theorem crash_route_never_succeeds (handle : option string) :
  truediv 1 0 w = (w, inl ZeroDivisionError) /\
  (snd (crash_route handle w) = inr (BodyStatus caught_crash_body 500) \/
   snd (crash_route handle w) = inl ZeroDivisionError) /\
  snd (crash_route handle w) <> inr (BodyStatus not_crashed_body 200) /\
  (forall response : ViewResult,
      snd (crash_route handle w) = inr response -> status_code response <> 200).
Proof.
  split; [reflexivity|]. rewrite crash_route_unfold. cbn [snd].
  destruct (contains (lower (kwarg "" handle)) propagate_handles).
  - split; [now right|]. split; [discriminate|]. intros r H. discriminate H.
  - split; [now left|]. split; [discriminate|].
    intros r H. injection H as <-. discriminate.
Qed.

End CrashRoute.

Lemma crash_route_caught_witness :
  ~ In (lower (kwarg "" (Some "Yes"))) propagate_handles /\
  crash_route (Some "Yes") [] =
    ([EvLog CRITICAL crash_log_message],
     inr (BodyStatus caught_crash_body 500)) /\
  crash_route None [] =
    ([EvLog CRITICAL crash_log_message],
     inr (BodyStatus caught_crash_body 500)) /\
  status_code (BodyStatus caught_crash_body 500) = 500.
Proof.
  assert (H : ~ In (lower (kwarg "" (Some "Yes"))) propagate_handles).
  { cbn. intros [E|[E|[E|[E|[E|[]]]]]]; discriminate E. }
  split; [exact H|].
  exact (crash_route_caught [] (Some "Yes") H).
Defined.

Lemma crash_route_propagates_witness :
  In (lower (kwarg "" (Some "Fail"))) propagate_handles /\
  crash_route (Some "Fail") [] =
    ([EvLog CRITICAL crash_log_message], inl ZeroDivisionError).
Proof.
  assert (H : In (lower (kwarg "" (Some "Fail"))) propagate_handles).
  { cbn. tauto. }
  split; [exact H|].
  exact (crash_route_propagates [] (Some "Fail") H).
Defined.

(* ===================================================================== *)
(** * Records that pass the logger's threshold *)
(* ===================================================================== *)

(** The theorems above count the records handed to the logger.  Which of
    them reach the stream is the logger's business: with the threshold of
    [logging.basicConfig(level=logging.INFO)] every severity but [DEBUG]
    passes. *)

Lemma isEnabledFor_spec (sev : Severity) :
  isEnabledFor sev = true <-> sev <> DEBUG.
Proof. destruct sev; cbn; split; intro H; congruence. Qed.

Lemma handled_app (w1 w2 : World) :
  handled (w1 ++ w2)%list = (handled w1 ++ handled w2)%list.
Proof. apply filter_app. Qed.

Lemma handled_repeat (sev : Severity) (msg : string) (n : nat) :
  handled (repeat (EvLog sev msg) n) =
  if isEnabledFor sev then repeat (EvLog sev msg) n else [].
Proof.
  induction n as [|n IH]; cbn [repeat handled filter].
  - now destruct (isEnabledFor sev).
  - fold (handled (repeat (EvLog sev msg) n)). rewrite IH.
    now destruct (isEnabledFor sev).
Qed.

Lemma handled_log_message_route
      (sev : Severity) (level message : string) (count : option Z) (w : World) :
  lower level = severity_name sev ->
  handled (fst (log_message_route level message count w)) =
  (handled w ++ if isEnabledFor sev
                then repeat (EvLog sev message) (Z.to_nat (kwarg 1 count))
                else [])%list.
Proof.
  intro Hlevel. rewrite (log_message_route_valid message w sev level count Hlevel).
  cbn [fst]. now rewrite handled_app, handled_repeat.
Qed.

Lemma handled_crash_route (handle : option string) (w : World) :
  handled (fst (crash_route handle w)) =
  (handled w ++ [EvLog CRITICAL crash_log_message])%list.
Proof. rewrite crash_route_unfold. cbn [fst]. now rewrite handled_app. Qed.

(* ===================================================================== *)
(** * The periodic emitter *)
(* ===================================================================== *)

Example heartbeat_unknown_level :
  periodic_iteration
    {| PERIODIC_LOG_LEVEL := "Verbose"; PERIODIC_LOG_MESSAGE := "tick";
       PERIODIC_LOG_INTERVAL := 3; HOST := "0.0.0.0"; PORT := 5000;
       DEBUG_MODE := false |} [] =
  ([EvSleep 3; EvLog INFO "tick"], inr tt).
Proof. reflexivity. Qed.

Example heartbeat_mixed_case_level :
  periodic_iteration
    {| PERIODIC_LOG_LEVEL := "Warning"; PERIODIC_LOG_MESSAGE := "tick";
       PERIODIC_LOG_INTERVAL := 3; HOST := "0.0.0.0"; PORT := 5000;
       DEBUG_MODE := false |} [] =
  ([EvSleep 3; EvLog WARNING "tick"], inr tt).
Proof. reflexivity. Qed.

Example while_can_finish :
  while_ 3 (ret false) (logger_info "x") [] = ([], inr (Finished tt)).
Proof. reflexivity. Qed.

Example while_can_fail :
  while_ 3 (ret true) (logger_info "x" ;; raise (KeyError "k")) [] =
  ([EvLog INFO "x"], inl (KeyError "k")).
Proof. reflexivity. Qed.

Example heartbeat_twice :
  periodic_logger default_settings 2 [] =
  ([EvSleep 10; EvLog INFO "System heartbeat";
    EvSleep 10; EvLog INFO "System heartbeat"], inr StillRunning).
Proof. reflexivity. Qed.

Example sleep_edges :
  time_sleep 0 [] = ([EvSleep 0], inr tt) /\
  time_sleep SLEEP_MAX [] = ([EvSleep SLEEP_MAX], inr tt) /\
  time_sleep (-1) [] = ([], inl ValueError) /\
  time_sleep (- SLEEP_MAX) [] = ([], inl ValueError) /\
  time_sleep (SLEEP_MAX + 1) [] = ([], inl OverflowError) /\
  time_sleep (- SLEEP_MAX - 1) [] = ([], inl OverflowError).
Proof. repeat split; reflexivity. Qed.


Lemma time_sleep_rejects (secs : Z) (w : World) :
  secs < 0 \/ SLEEP_MAX < secs ->
  exists e : Exn,
    (e = ValueError \/ e = OverflowError) /\ time_sleep secs w = (w, inl e).
Proof.
  intro Hout. unfold time_sleep.
  destruct ((secs <? - SLEEP_MAX) || (SLEEP_MAX <? secs)) eqn:Hfit.
  - exists OverflowError. split; [now right | reflexivity].
  - apply orb_false_elim in Hfit. destruct Hfit as [_ Hhi].
    apply Z.ltb_ge in Hhi.
    replace (secs <? 0) with true by (symmetry; apply Z.ltb_lt; lia).
    exists ValueError. split; [now left | reflexivity].
Qed.


(** Two loops whose bodies behave alike behave alike. *)
Lemma while_ext (cond : M bool) (body1 body2 : M unit) :
  (forall w, body1 w = body2 w) ->
  forall (fuel : nat) (w : World),
    while_ fuel cond body1 w = while_ fuel cond body2 w.
Proof.
  intros Hbody fuel. induction fuel as [|fuel IH]; intro w; [reflexivity|].
  cbn [while_]. unfold bind.
  destruct (cond w) as [w1 [e|[|]]]; try reflexivity.
  rewrite Hbody. destruct (body2 w1) as [w2 [e|u]]; [reflexivity|apply IH].
Qed.



Section PeriodicLogger.

Variable settipy : Settings.

Let level := PERIODIC_LOG_LEVEL settipy.
Let message := PERIODIC_LOG_MESSAGE settipy.
Let interval := PERIODIC_LOG_INTERVAL settipy.


(** One pass on an interval that [time.sleep] refuses: the exception leaves
    the loop body before anything is logged. *)
Lemma periodic_iteration_refused (w : World) :
  interval < 0 \/ SLEEP_MAX < interval ->
  exists e : Exn,
    (e = ValueError \/ e = OverflowError) /\
    periodic_iteration settipy w = (w, inl e).
Proof.
  intro Hout. destruct (time_sleep_rejects interval w Hout) as [e [He Hsleep]].
  exists e. split; [exact He|].
  unfold periodic_iteration, bind. fold interval. now rewrite Hsleep.
Qed.




End PeriodicLogger.





(* ===================================================================== *)
(** * Further properties of the log emission handler *)
(* ===================================================================== *)

Lemma upper_of_valid_level (sev : Severity) (level : string) :
  lower level = severity_name sev -> upper level = upper (severity_name sev).
Proof. intro H. now rewrite <- (upper_lower level), H. Qed.

(** X1: the handler never raises.  The lookup that follows the membership
    test cannot miss, so every call ends in a response, with status 200
    when the lowercase level is a key of [log_levels] and 400 when not. *)
Theorem log_message_route_always_responds
        (level message : string) (count : option Z) (w : World) :
  exists response : ViewResult,
    snd (log_message_route level message count w) = inr response /\
    (In (lower level) valid_levels /\ status_code response = 200 \/
     ~ In (lower level) valid_levels /\ status_code response = 400).
Proof.
  destruct (in_dec string_dec (lower level) valid_levels) as [Hin|Hout].
  - destruct (proj1 (valid_levels_names _) Hin) as [sev Hsev].
    rewrite (log_message_route_valid message w sev level count Hsev).
    eexists. split; [reflexivity|]. left. now split.
  - rewrite (log_message_route_invalid message w level count Hout).
    eexists. split; [reflexivity|]. right. now split.
Qed.

(** X2: two requests for the same level and message, with counts [a] and
    [b], leave the trace that one request with count [a + b] leaves. *)
Theorem log_message_route_counts_add
        (sev : Severity) (level message : string) (a b : Z) (w : World) :
  lower level = severity_name sev ->
  0 <= a -> 0 <= b ->
  fst (log_message_route level message (Some b)
         (fst (log_message_route level message (Some a) w))) =
  fst (log_message_route level message (Some (a + b)) w).
Proof.
  intros Hlevel Ha Hb.
  rewrite (log_message_route_valid message w sev level (Some a) Hlevel).
  cbn [fst].
  rewrite (log_message_route_valid message _ sev level (Some b) Hlevel).
  rewrite (log_message_route_valid message w sev level (Some (a + b)) Hlevel).
  cbn [fst kwarg].
  rewrite (Z2Nat.inj_add a b Ha Hb), repeat_app.
  now rewrite app_assoc.
Qed.

(** X3: the handler only appends.  The trace it is given is kept as a
    prefix, and every event it adds is a log record that carries the
    request's message unchanged, at the severity the lowercase level names;
    it never sleeps. *)
Theorem log_message_route_only_appends
        (level message : string) (count : option Z) (w : World) :
  exists added : list Event,
    fst (log_message_route level message count w) = (w ++ added)%list /\
    Forall (fun e => exists sev, e = EvLog sev message /\
                                 lower level = severity_name sev) added.
Proof.
  destruct (in_dec string_dec (lower level) valid_levels) as [Hin|Hout].
  - destruct (proj1 (valid_levels_names _) Hin) as [sev Hsev].
    rewrite (log_message_route_valid message w sev level count Hsev).
    eexists. split; [reflexivity|].
    apply Forall_forall. intros e He. apply repeat_spec in He.
    exists sev. now split.
  - rewrite (log_message_route_invalid message w level count Hout).
    exists []. split; [cbn [fst]; now rewrite app_nil_r | constructor].
Qed.

(** X4: in a success body the level is always one of DEBUG, INFO, WARNING,
    ERROR, CRITICAL, however the caller mixed the letter case. *)
Theorem log_message_route_body_canonical_level
        (sev : Severity) (level message : string) (count : option Z) (w : World) :
  lower level = severity_name sev ->
  In (upper (severity_name sev))
     ["DEBUG"; "INFO"; "WARNING"; "ERROR"; "CRITICAL"] /\
  snd (log_message_route level message count w) =
    inr (Body ("Emitted " ++ str (kwarg 1 count) ++ " logs at level "
                 ++ upper (severity_name sev) ++ " with message: " ++ message)).
Proof.
  intro Hlevel. split.
  - destruct sev; cbn; tauto.
  - rewrite (log_message_route_valid message w sev level count Hlevel).
    cbn [snd]. now rewrite (upper_of_valid_level sev level Hlevel).
Qed.

(** X5: under the threshold of [logging.basicConfig(level=logging.INFO)] a
    request at debug level adds nothing to the records that pass, although
    it is answered with "Emitted ... logs"; at every other valid level all
    the records of the request pass. *)
Theorem log_message_route_threshold
        (sev : Severity) (level message : string) (count : option Z) (w : World) :
  lower level = severity_name sev ->
  (sev = DEBUG ->
   handled (fst (log_message_route level message count w)) = handled w) /\
  (sev <> DEBUG ->
   handled (fst (log_message_route level message count w)) =
   (handled w ++ repeat (EvLog sev message) (Z.to_nat (kwarg 1 count)))%list).
Proof.
  intro Hlevel.
  rewrite (handled_log_message_route sev level message count w Hlevel).
  split.
  - intros ->. cbn. now rewrite app_nil_r.
  - intro Hsev. now rewrite (proj2 (isEnabledFor_spec sev) Hsev).
Qed.

(* ===================================================================== *)
(** * Further properties of the crash handler *)
(* ===================================================================== *)

(** X6: whatever the handle, a crash request hands exactly one record to the
    logger, at critical severity, and that record passes the configured
    threshold. *)
Theorem crash_route_always_logs_critical (handle : option string) (w : World) :
  fst (crash_route handle w) = (w ++ [EvLog CRITICAL crash_log_message])%list /\
  handled (fst (crash_route handle w)) =
    (handled w ++ [EvLog CRITICAL crash_log_message])%list.
Proof.
  rewrite crash_route_unfold. cbn [fst]. split; [reflexivity|].
  now rewrite handled_app.
Qed.

(** X7: the handle is compared without regard to letter case: two handles
    with the same lowercase form get the same outcome and the same trace. *)
Theorem crash_route_case_insensitive (handle1 handle2 : string) (w : World) :
  lower handle1 = lower handle2 ->
  crash_route (Some handle1) w = crash_route (Some handle2) w.
Proof.
  intro Hcase. rewrite !crash_route_unfold. cbn [kwarg]. now rewrite Hcase.
Qed.

(** X8: neither handler reads the trace: run after any history [w1], a
    request adds the same events and has the same outcome as without it. *)
Theorem handlers_ignore_history (w1 w2 : World) :
  (forall (level message : string) (count : option Z),
      log_message_route level message count (w1 ++ w2)%list =
      ((w1 ++ fst (log_message_route level message count w2))%list,
       snd (log_message_route level message count w2))) /\
  (forall handle : option string,
      crash_route handle (w1 ++ w2)%list =
      ((w1 ++ fst (crash_route handle w2))%list, snd (crash_route handle w2))).
Proof.
  split.
  - intros level message count.
    destruct (in_dec string_dec (lower level) valid_levels) as [Hin|Hout].
    + destruct (proj1 (valid_levels_names _) Hin) as [sev Hsev].
      rewrite !(log_message_route_valid message _ sev level count Hsev).
      cbn [fst snd]. now rewrite app_assoc.
    + now rewrite !(log_message_route_invalid message _ level count Hout).
  - intro handle. rewrite !crash_route_unfold. cbn [fst snd].
    now rewrite app_assoc.
Qed.

(* ===================================================================== *)
(** * Further properties of the periodic emitter *)
(* ===================================================================== *)


Section PeriodicLoggerMore.

Variable settipy : Settings.

Let level := PERIODIC_LOG_LEVEL settipy.
Let message := PERIODIC_LOG_MESSAGE settipy.
Let interval := PERIODIC_LOG_INTERVAL settipy.



(** X11: an interval that [time.sleep] refuses (negative, or beyond
    [SLEEP_MAX]) ends the emitter on its first pass: the loop is left by
    [ValueError] or [OverflowError], and nothing has been logged or slept. *)
Theorem periodic_logger_refused_interval (n : nat) (w : World) :
  interval < 0 \/ SLEEP_MAX < interval ->
  exists e : Exn,
    (e = ValueError \/ e = OverflowError) /\
    periodic_logger settipy (S n) w = (w, inl e).
Proof.
  intro Hout.
  destruct (periodic_iteration_refused settipy w Hout) as [e [He Hpass]].
  exists e. split; [exact He|].
  unfold periodic_logger. cbn [while_]. cbv [bind ret]. now rewrite Hpass.
Qed.


End PeriodicLoggerMore.

(** X13: the emitter reads PERIODIC_LOG_LEVEL without regard to letter case:
    two settings with the same message and interval whose levels have the
    same lowercase form run alike. *)
Theorem periodic_logger_case_insensitive
        (settipy1 settipy2 : Settings) (n : nat) (w : World) :
  lower (PERIODIC_LOG_LEVEL settipy1) = lower (PERIODIC_LOG_LEVEL settipy2) ->
  PERIODIC_LOG_MESSAGE settipy1 = PERIODIC_LOG_MESSAGE settipy2 ->
  PERIODIC_LOG_INTERVAL settipy1 = PERIODIC_LOG_INTERVAL settipy2 ->
  periodic_logger settipy1 n w = periodic_logger settipy2 n w.
Proof.
  intros Hlevel Hmsg Hint. unfold periodic_logger.
  apply while_ext. intro w'.
  unfold periodic_iteration. now rewrite Hlevel, Hmsg, Hint.
Qed.

(* ===================================================================== *)
(** * The further properties at concrete inputs *)
(* ===================================================================== *)

Lemma log_message_route_counts_add_witness :
  lower "Error" = severity_name ERROR /\ 0 <= 2 /\ 0 <= 3 /\
  fst (log_message_route "Error" "boom" (Some 3)
         (fst (log_message_route "Error" "boom" (Some 2) []))) =
  fst (log_message_route "Error" "boom" (Some (2 + 3)) []).
Proof.
  split; [reflexivity|]. split; [discriminate|]. split; [discriminate|].
  apply (log_message_route_counts_add ERROR "Error" "boom" 2 3 []);
    [reflexivity | discriminate | discriminate].
Defined.

Lemma log_message_route_body_canonical_level_witness :
  lower "wArNiNg" = severity_name WARNING /\
  In (upper (severity_name WARNING))
     ["DEBUG"; "INFO"; "WARNING"; "ERROR"; "CRITICAL"] /\
  snd (log_message_route "wArNiNg" "m" (Some 2) []) =
    inr (Body "Emitted 2 logs at level WARNING with message: m").
Proof.
  split; [reflexivity|].
  exact (log_message_route_body_canonical_level
           WARNING "wArNiNg" "m" (Some 2) [] eq_refl).
Defined.

Lemma log_message_route_threshold_witness :
  lower "DEBUG" = severity_name DEBUG /\
  (DEBUG = DEBUG ->
   handled (fst (log_message_route "DEBUG" "trace-me" (Some 4) [])) = handled []) /\
  (DEBUG <> DEBUG ->
   handled (fst (log_message_route "DEBUG" "trace-me" (Some 4) [])) =
   (handled [] ++ repeat (EvLog DEBUG "trace-me") (Z.to_nat (kwarg 1 (Some 4))))%list).
Proof.
  split; [reflexivity|].
  exact (log_message_route_threshold DEBUG "DEBUG" "trace-me" (Some 4) [] eq_refl).
Defined.

Lemma crash_route_case_insensitive_witness :
  lower "FAIL" = lower "fail" /\
  crash_route (Some "FAIL") [] = crash_route (Some "fail") [].
Proof.
  split; [reflexivity|].
  exact (crash_route_case_insensitive "FAIL" "fail" [] eq_refl).
Defined.



Lemma periodic_logger_refused_interval_witness :
  (-5 < 0 \/ SLEEP_MAX < -5) /\
  exists e : Exn,
    (e = ValueError \/ e = OverflowError) /\
    periodic_logger
      {| PERIODIC_LOG_LEVEL := "INFO"; PERIODIC_LOG_MESSAGE := "System heartbeat";
         PERIODIC_LOG_INTERVAL := -5; HOST := "0.0.0.0"; PORT := 5000;
         DEBUG_MODE := false |} 4 [EvLog INFO "started"] =
    ([EvLog INFO "started"], inl e).
Proof.
  assert (Hout : -5 < 0 \/ SLEEP_MAX < -5) by (left; reflexivity).
  split; [exact Hout|].
  exact (periodic_logger_refused_interval
           {| PERIODIC_LOG_LEVEL := "INFO";
              PERIODIC_LOG_MESSAGE := "System heartbeat";
              PERIODIC_LOG_INTERVAL := -5; HOST := "0.0.0.0"; PORT := 5000;
              DEBUG_MODE := false |} 3 [EvLog INFO "started"] Hout).
Defined.


Lemma periodic_logger_case_insensitive_witness :
  lower "INFO" = lower "info" /\
  "System heartbeat" = "System heartbeat" /\ 10 = 10 /\
  periodic_logger default_settings 3 [] =
  periodic_logger
    {| PERIODIC_LOG_LEVEL := "info"; PERIODIC_LOG_MESSAGE := "System heartbeat";
       PERIODIC_LOG_INTERVAL := 10; HOST := "127.0.0.1"; PORT := 8080;
       DEBUG_MODE := true |} 3 [].
Proof.
  split; [reflexivity|]. split; [reflexivity|]. split; [reflexivity|].
  exact (periodic_logger_case_insensitive default_settings
           {| PERIODIC_LOG_LEVEL := "info";
              PERIODIC_LOG_MESSAGE := "System heartbeat";
              PERIODIC_LOG_INTERVAL := 10; HOST := "127.0.0.1"; PORT := 8080;
              DEBUG_MODE := true |} 3 [] eq_refl eq_refl eq_refl).
Defined.
